(** * The Coulomb-matrix feature builder of the Psi4Education machine-learning notebook

    Source: [Psi4Education/Machine_Learning/Machine_Learning_Student_Cavity.ipynb],
    the cell that defines [coulomb(geom, q)] and the cells around it.

    The notebook documents the matrix with the equation
    [C_ij = Z_i Z_j / r_ij] for [i <> j], [C_ii = 0.5 Z_i^2.4], and asks the
    reader to fill the body of [coulomb]; the function in the notebook
    allocates the matrix with [np.zeros] and returns it.

    Conventions of the embedding:
    - a Python [float] / [np.float64] is a [float64]: a finite value is a
      real number (rounding is not modelled), next to the special values
      infinity and not-a-number;
    - a two-dimensional [np.ndarray] is its shape and its rows;
    - a call either returns a value or raises an exception ([outcome]). *)

From Stdlib Require Import Reals Lra Lia List Arith PeanoNat Permutation.
From Stdlib Require Import Sorted.
Import ListNotations.

Local Open Scope R_scope.

(** ** Values *)

Inductive float64 : Type :=
  | Finite (x : R)
  | Inf (negative : bool)
  | NaN.

Definition is_finite (x : float64) : bool :=
  match x with
  | Finite _ => true
  | _ => false
  end.

Inductive exception : Type :=
  | InvalidInput
  | IndexError
  | TypeError.

Inductive outcome (A : Type) : Type :=
  | Returns (a : A)
  | Raises (e : exception).

Arguments Returns {A} a.
Arguments Raises {A} e.

(** ** Two-dimensional arrays *)

Record ndarray : Type := mk_ndarray {
  shape : nat * nat;
  rows : list (list float64)
}.

Module np.

(** [np.zeros((r, c))]: a fresh [r] x [c] array of [0.0]. *)
Definition zeros (shp : nat * nat) : ndarray :=
  {| shape := shp;
     rows := repeat (repeat (Finite 0) (snd shp)) (fst shp) |}.

End np.

(** [cm[i][j]] for indices counted from 0; [None] stands for the
    [IndexError] of an index past the end. *)
Definition entry (cm : ndarray) (i j : nat) : option float64 :=
  match nth_error (rows cm) i with
  | Some row => nth_error row j
  | None => None
  end.

Definition well_shaped (cm : ndarray) : Prop :=
  length (rows cm) = fst (shape cm) /\
  Forall (fun row => length row = snd (shape cm)) (rows cm).

Definition all_zero (cm : ndarray) : Prop :=
  Forall (Forall (fun x => x = Finite 0)) (rows cm).

Definition all_finite (cm : ndarray) : bool :=
  forallb (forallb is_finite) (rows cm).

(** ** The function of the notebook *)

(** [def coulomb(geom, q)]:
    [natom = len(q)], [cm = np.zeros((natom, natom))], then the place left
    for the reader's loop, then [return cm]. *)
Definition coulomb (geom : list (list R)) (q : list R) : outcome ndarray :=
  let natom := length q in
  let cm := np.zeros (natom, natom) in
  (* ==> YOUR CODE HERE <== *)
  Returns cm.

(** What a caller may pass after [geom] and [q]: a vector such as
    [lambda_vector] or a number such as [alpha]. *)
Inductive argument : Type :=
  | ArgVector (v : list R)
  | ArgNumber (x : R).

(** The call [coulomb(geom, q, *more)].  The function is defined as
    [def coulomb(geom,q)]: with any further positional argument Python
    raises [TypeError] before the body runs. *)
Definition call_coulomb (geom : list (list R)) (q : list R) (more : list argument)
    : outcome ndarray :=
  match more with
  | [] => coulomb geom q
  | _ :: _ => Raises TypeError
  end.

(** ** Atom lists *)

Record atom : Type := mk_atom {
  position : list R;
  charge : R
}.

Definition geom_of (atoms : list atom) : list (list R) := map position atoms.
Definition charges_of (atoms : list atom) : list R := map charge atoms.

(** The call the notebook makes for one molecule: [coulomb(geoms[i], qs[i])]. *)
Definition coulomb_atoms (atoms : list atom) : outcome ndarray :=
  coulomb (geom_of atoms) (charges_of atoms).

(** Two different places of the list hold the same position. *)
Definition coincident (atoms : list atom) : Prop :=
  exists i j a b, i <> j /\ nth_error atoms i = Some a /\
                  nth_error atoms j = Some b /\ position a = position b.

(** Reordering by an index list [p]: place [i] of the result is place
    [p[i]] of the input. *)
Definition permute {A : Type} (d : A) (l : list A) (p : list nat) : list A :=
  map (fun k => nth k l d) p.

Definition is_permutation (p : list nat) (n : nat) : Prop :=
  Permutation p (seq 0 n).

(** An atom list the documented matrix is defined on: at least one atom,
    no two at the same position. *)
Definition valid (atoms : list atom) : Prop :=
  atoms <> [] /\ ~ coincident atoms.

Definition origin_atom : atom := {| position := [0; 0; 0]; charge := 0 |}.

(** ** The documented matrix *)

(** Euclidean distance between two coordinate lists. *)
Definition sum_sq_diff (p p' : list R) : R :=
  fold_right Rplus 0 (map (fun ab => (fst ab - snd ab) * (fst ab - snd ab)) (combine p p')).

Definition distance (p p' : list R) : R := sqrt (sum_sq_diff p p').

Definition dot (p l : list R) : R :=
  fold_right Rplus 0 (map (fun ab => fst ab * snd ab) (combine p l)).

(** Python's [x ** y] on floats, for [x >= 0]: [0.0 ** y] is [0.0] for a
    positive [y], and a positive [x] gives [exp (y * ln x)]. *)
Definition real_pow (x y : R) : R :=
  if Req_dec_T x 0 then 0 else Rpower x y.

Record field_descriptor : Type := mk_field {
  lambda : list R;
  alpha : R
}.

Module FeatureMatrixBuilder.

(** The equations of the notebook's text, which section 4.1 of the
    specification repeats: [C_ij = Z_i Z_j / r_ij] off the diagonal,
    [C_ii = 0.5 Z_i^2.4] on it, and
    [C_ii = 0.5 Z_i^2.4 + alpha (Z_i R_i . lambda)^2] with a cavity field. *)
Definition off_diagonal (a b : atom) : R :=
  charge a * charge b / distance (position a) (position b).

Definition diagonal_base (a : atom) : R :=
  0.5 * real_pow (charge a) 2.4.

Definition diagonal_field (f : field_descriptor) (a : atom) : R :=
  0.5 * real_pow (charge a) 2.4
  + alpha f * ((charge a * dot (position a) (lambda f)) * (charge a * dot (position a) (lambda f))).

Definition diagonal (field : option field_descriptor) (a : atom) : R :=
  match field with
  | None => diagonal_base a
  | Some f => diagonal_field f a
  end.

Definition cell (atoms : list atom) (field : option field_descriptor) (i j : nat) : R :=
  let a := nth i atoms origin_atom in
  let b := nth j atoms origin_atom in
  if Nat.eqb i j then diagonal field a else off_diagonal a b.

End FeatureMatrixBuilder.

(** ** Concrete inputs *)

(** The Z-matrix of the notebook, [O; H 1 r; H 1 r 2 104.5], laid out with
    the oxygen at the origin and the first hydrogen on the x axis. *)
Definition hoh_angle : R := 104.5 * PI / 180.

Definition water (r : R) : list atom :=
  [ {| position := [0; 0; 0]; charge := 8 |};
    {| position := [r; 0; 0]; charge := 1 |};
    {| position := [r * cos hoh_angle; r * sin hoh_angle; 0]; charge := 1 |} ].

(** [mol.geometry()] is in bohr; the notebook's bond lengths are in
    angstrom.  The factor is the one of psi4's physical constants. *)
Definition bohr2angstroms : R := 0.52917721067.
Definition to_bohr (r_angstrom : R) : R := r_angstrom / bohr2angstroms.

(** The matrix the notebook prints after [print(couls[0])]. *)
Definition reference : list (list R) :=
  [ [73.51669472; 8.46683537; 8.46683537];
    [8.46683537; 0.5; 0.66926039];
    [8.46683537; 0.66926039; 0.5] ].

Definition ref_entry (ref : list (list R)) (i j : nat) : option R :=
  match nth_error ref i with
  | Some row => nth_error row j
  | None => None
  end.


(** The documented entries of [atoms], without field, are each at most
    [tol] away from the entries of [ref]. *)
Definition documented_within (tol : R) (atoms : list atom) (ref : list (list R)) : Prop :=
  forall i j x, ref_entry ref i j = Some x ->
    Rabs (FeatureMatrixBuilder.cell atoms None i j - x) <= tol.

(** Two atoms at the same place. *)
Definition stacked : list atom :=
  [ {| position := [0; 0; 0]; charge := 1 |};
    {| position := [0; 0; 0]; charge := 1 |} ].

(** Two unit charges one unit apart. *)
Definition h2 : list atom :=
  [ {| position := [0; 0; 0]; charge := 1 |};
    {| position := [0; 0; 1]; charge := 1 |} ].

(** * The cells around [coulomb] *)

(** ** The bond-length grid *)

(** [rs = []; for i in range(0, npoints): rs.append(0.5 + i*0.05)]; the
    notebook runs it with [npoints = 31]. *)
Definition bond_lengths (npoints : nat) : list R :=
  fold_left (fun acc i => acc ++ [0.5 + INR i * 0.05]) (seq 0 npoints) [].

Definition rs : list R := bond_lengths 31.

(** ** The scan over the bond lengths *)

(** The three lists the scan fills. *)
Record scan_lists : Type := mk_scan {
  st_geoms : list (list (list R));
  st_qs : list (list R);
  st_Es : list R
}.

Section Scan.

(** What psi4 provides: the molecule built from the Z-matrix with both O-H
    bonds at length [i], its Cartesian geometry [mol.geometry().to_array()],
    its nuclear charges [mol.fZ(a)] and its energy [psi4.energy('scf')]. *)
Variable Molecule : Type.
Variable psi4_geometry : R -> Molecule.
Variable to_array : Molecule -> list (list R).
Variable fZ : Molecule -> nat -> R.
Variable psi4_energy : Molecule -> R.

(** [q = []; for a in range(0,3): q.append(mol.fZ(a))]. *)
Definition molecule_charges (mol : Molecule) : list R :=
  fold_left (fun q a => q ++ [fZ mol a]) (seq 0 3) [].

(** One turn of [for i in rs]. *)
Definition scan_step (st : scan_lists) (i : R) : scan_lists :=
  let mol := psi4_geometry i in
  {| st_geoms := st_geoms st ++ [to_array mol];
     st_qs := st_qs st ++ [molecule_charges mol];
     st_Es := st_Es st ++ [psi4_energy mol] |}.

Definition scan (lengths : list R) : scan_lists :=
  fold_left scan_step lengths {| st_geoms := []; st_qs := []; st_Es := [] |}.

End Scan.

(** ** The loop that calls [coulomb] *)

(** [couls = []; for i in range(0, len(geoms)): coul = coulomb(geoms[i], qs[i]);
    couls.append(coul)].  An index past the end of [qs] raises
    [IndexError]. *)
Fixpoint couls_loop (gs : list (list (list R))) (qss : list (list R))
    (indices : list nat) (couls : list ndarray) : outcome (list ndarray) :=
  match indices with
  | [] => Returns couls
  | i :: rest =>
      match nth_error gs i with
      | None => Raises IndexError
      | Some g =>
          match nth_error qss i with
          | None => Raises IndexError
          | Some q =>
              match coulomb g q with
              | Returns coul => couls_loop gs qss rest (couls ++ [coul])
              | Raises e => Raises e
              end
          end
      end
  end.

(** The array [coulomb] returns for the charge list [q]. *)
Definition zeros_for (q : list R) : ndarray := np.zeros (length q, length q).

Definition generate_couls (gs : list (list (list R))) (qss : list (list R))
    : outcome (list ndarray) :=
  couls_loop gs qss (seq 0 (length gs)) [].

(** ** Training and test sets *)

(** [cm.flatten()]: the rows one after the other. *)
Definition flatten (cm : ndarray) : list float64 := concat (rows cm).

(** [for t in idx: X.append(couls[t].flatten()); y.append(Es[t])]. *)
Fixpoint select_loop (couls : list ndarray) (energies : list R) (idx : list nat)
    (X : list (list float64)) (y : list R)
    : outcome (list (list float64) * list R) :=
  match idx with
  | [] => Returns (X, y)
  | t :: rest =>
      match nth_error couls t with
      | None => Raises IndexError
      | Some c =>
          match nth_error energies t with
          | None => Raises IndexError
          | Some e => select_loop couls energies rest (X ++ [flatten c]) (y ++ [e])
          end
      end
  end.

Definition select (couls : list ndarray) (energies : list R) (idx : list nat)
    : outcome (list (list float64) * list R) :=
  select_loop couls energies idx [] [].

(** [sorted(l, reverse=True)] on a list of indices. *)
Fixpoint insert_desc (t : nat) (l : list nat) : list nat :=
  match l with
  | [] => [t]
  | x :: l' => if Nat.leb x t then t :: l else x :: insert_desc t l'
  end.

Definition sorted_reverse (l : list nat) : list nat :=
  fold_right insert_desc [] l.

(** [del l[t]]. *)
Definition del_item {A : Type} (l : list A) (t : nat) : outcome (list A) :=
  if Nat.ltb t (length l) then Returns (firstn t l ++ skipn (S t) l)
  else Raises IndexError.

(** [for t in ts: del l[t]]. *)
Fixpoint del_each {A : Type} (l : list A) (ts : list nat) : outcome (list A) :=
  match ts with
  | [] => Returns l
  | t :: rest =>
      match del_item l t with
      | Returns l' => del_each l' rest
      | Raises e => Raises e
      end
  end.

(** [testers = []; for i in range(0, n): testers.append(i);
    for t in sorted(trainers, reverse=True): del testers[t]];
    the notebook runs it with [n = 31]. *)
Definition make_testers (n : nat) (trainers : list nat) : outcome (list nat) :=
  del_each (fold_left (fun acc i => acc ++ [i]) (seq 0 n) []) (sorted_reverse trainers).

Definition trainers : list nat := [0; 7; 15; 23]%nat.

(** Whether the index [i] is one of [ts]. *)
Definition is_in (ts : list nat) (i : nat) : bool := existsb (Nat.eqb i) ts.

(** The elements of [l], counted from [k], whose index is not in [ts]. *)
Fixpoint keep_from {A : Type} (k : nat) (l : list A) (ts : list nat) : list A :=
  match l with
  | [] => []
  | x :: l' => if is_in ts k then keep_from (S k) l' ts else x :: keep_from (S k) l' ts
  end.

(** ** The aromatic proportion of the solubility notebook *)

(** The part of an RDKit molecule the function reads: its atoms, each
    aromatic or not. *)
Record rd_atom : Type := mk_rd_atom {
  atomic_num : nat;
  is_aromatic : bool
}.

Definition Mol : Type := list rd_atom.

Definition GetAromaticAtoms (mol : Mol) : list rd_atom := filter is_aromatic mol.
Definition GetNumAtoms (mol : Mol) : nat := length mol.

(** [def aromatic_calc(mol)]:
    [prop_aromatic = len(mol.GetAromaticAtoms())/mol.GetNumAtoms()];
    [None] stands for the [ZeroDivisionError] of a molecule without atoms. *)
Definition aromatic_calc (mol : Mol) : option R :=
  if Nat.eqb (GetNumAtoms mol) 0 then None
  else
    let prop_aromatic := INR (length (GetAromaticAtoms mol)) / INR (GetNumAtoms mol) in
    Some prop_aromatic.

(** * Properties of the function as the notebook has it *)

Section Zeros.

Variables r c : nat.

Lemma zeros_shape : shape (np.zeros (r, c)) = (r, c).
Proof. reflexivity. Qed.

Lemma zeros_well_shaped : well_shaped (np.zeros (r, c)).
Proof.
  split; simpl.
  - apply repeat_length.
  - apply Forall_forall. intros row Hin.
    apply repeat_spec in Hin. subst row. apply repeat_length.
Qed.

Lemma zeros_all_zero : all_zero (np.zeros (r, c)).
Proof.
  unfold all_zero; simpl.
  apply Forall_forall. intros row Hin.
  apply repeat_spec in Hin. subst row.
  apply Forall_forall. intros x Hx.
  now apply repeat_spec in Hx.
Qed.

Lemma zeros_entry_in (i j : nat) :
  (i < r)%nat -> (j < c)%nat -> entry (np.zeros (r, c)) i j = Some (Finite 0).
Proof.
  intros Hi Hj. unfold entry; simpl.
  rewrite nth_error_repeat by exact Hi.
  now rewrite nth_error_repeat by exact Hj.
Qed.

Lemma zeros_entry_out_row (i j : nat) :
  (r <= i)%nat -> entry (np.zeros (r, c)) i j = None.
Proof.
  intros Hi. unfold entry; simpl.
  assert (H : nth_error (repeat (repeat (Finite 0) c) r) i = None).
  { apply nth_error_None. now rewrite repeat_length. }
  now rewrite H.
Qed.

Lemma zeros_entry_out_col (i j : nat) :
  (c <= j)%nat -> entry (np.zeros (r, c)) i j = None.
Proof.
  intros Hj. unfold entry; simpl.
  destruct (nth_error (repeat (repeat (Finite 0) c) r) i) as [row|] eqn:E; [|reflexivity].
  apply nth_error_In, repeat_spec in E. subst row.
  apply nth_error_None. now rewrite repeat_length.
Qed.

Lemma zeros_all_finite : all_finite (np.zeros (r, c)) = true.
Proof.
  unfold all_finite; simpl.
  apply forallb_forall. intros row Hin.
  apply repeat_spec in Hin. subst row.
  apply forallb_forall. intros x Hx.
  apply repeat_spec in Hx. now subst x.
Qed.

End Zeros.

(** A square array of zeros reads the same across the diagonal, past the
    end included. *)
Lemma zeros_square_entry_sym (n i j : nat) :
  entry (np.zeros (n, n)) i j = entry (np.zeros (n, n)) j i.
Proof.
  destruct (Nat.lt_ge_cases i n) as [Hi|Hi], (Nat.lt_ge_cases j n) as [Hj|Hj].
  - now rewrite !zeros_entry_in.
  - now rewrite zeros_entry_out_col, zeros_entry_out_row.
  - now rewrite zeros_entry_out_row, zeros_entry_out_col.
  - now rewrite !zeros_entry_out_row.
Qed.

Lemma coulomb_unfold (geom : list (list R)) (q : list R) :
  coulomb geom q = Returns (np.zeros (length q, length q)).
Proof. reflexivity. Qed.

Example coulomb_h2 :
  coulomb_atoms h2
  = Returns {| shape := (2%nat, 2%nat);
               rows := [[Finite 0; Finite 0]; [Finite 0; Finite 0]] |}.
Proof. reflexivity. Qed.

Example coulomb_water_corner (r : R) :
  match coulomb_atoms (water r) with
  | Returns cm => entry cm 0 0 = Some (Finite 0) /\ entry cm 2 1 = Some (Finite 0)
                  /\ entry cm 3 0 = None
  | Raises _ => False
  end.
Proof. repeat split. Qed.

Lemma charges_of_length (atoms : list atom) : length (charges_of atoms) = length atoms.
Proof. apply length_map. Qed.

Lemma permute_length {A : Type} (d : A) (l : list A) (p : list nat) :
  length (permute d l p) = length p.
Proof. apply length_map. Qed.

Lemma is_permutation_length (p : list nat) (n : nat) :
  is_permutation p n -> length p = n.
Proof.
  intros H. apply Permutation_length in H. now rewrite length_seq in H.
Qed.

Lemma is_permutation_bound (p : list nat) (n i : nat) :
  is_permutation p n -> (i < n)%nat -> (nth i p 0%nat < n)%nat.
Proof.
  intros H Hi.
  assert (Hin : In (nth i p 0%nat) p).
  { apply nth_In. now rewrite (is_permutation_length _ _ H). }
  apply (Permutation_in _ H), in_seq in Hin. lia.
Qed.

Lemma stacked_coincident : coincident stacked.
Proof.
  exists 0%nat, 1%nat.
  exists {| position := [0; 0; 0]; charge := 1 |}, {| position := [0; 0; 0]; charge := 1 |}.
  split; [discriminate|]. split; [reflexivity|]. split; reflexivity.
Qed.

(** C3: for every geometry list and every charge list, [coulomb] returns the
    array of shape [len(q)] x [len(q)] all of whose entries are zero: it is
    the fresh [np.zeros] array, returned as allocated. *)
Theorem coulomb_returns_zero_matrix (geom : list (list R)) (q : list R) :
  exists cm, coulomb geom q = Returns cm /\
             cm = np.zeros (length q, length q) /\
             shape cm = (length q, length q) /\
             well_shaped cm /\
             all_zero cm.
Proof.
  exists (np.zeros (length q, length q)).
  split; [apply coulomb_unfold|].
  split; [reflexivity|].
  split; [apply zeros_shape|].
  split; [apply zeros_well_shaped | apply zeros_all_zero].
Qed.

(** C10: the returned array is a [len(q)] x [len(q)] array, [len(q)] rows of
    [len(q)] entries, whatever the geometry list is; the geometry is not
    read, so replacing it by any other list, of any length, gives the same
    result and no failure. *)
Theorem coulomb_shape_from_charges (geom geom' : list (list R)) (q : list R) :
  (exists cm, coulomb geom q = Returns cm /\
              shape cm = (length q, length q) /\
              well_shaped cm) /\
  coulomb geom' q = coulomb geom q.
Proof.
  split.
  - exists (np.zeros (length q, length q)).
    split; [apply coulomb_unfold|].
    split; [apply zeros_shape | apply zeros_well_shaped].
  - now rewrite !coulomb_unfold.
Qed.

(** A call with three positions and two charges. *)
Example coulomb_mismatched_lengths :
  exists cm, coulomb [[0; 0; 0]; [1; 0; 0]; [0; 1; 0]] [8; 1] = Returns cm /\ shape cm = (2%nat, 2%nat).
Proof. eexists. split; reflexivity. Qed.

(** C5 as stated fails: with a field descriptor passed after [geom] and
    [q], no array is returned, symmetric or not. *)
Lemma coulomb_with_field_returns_nothing :
  ~ exists cm,
      call_coulomb (geom_of h2) (charges_of h2) [ArgVector [1; 0; 0]; ArgNumber 1] = Returns cm /\
      exists x, entry cm 0 1 = Some x /\ entry cm 1 0 = Some x.
Proof. intros [cm [H _]]. discriminate H. Qed.

(** C5, amended: the call without field descriptor returns a [len(q)] x
    [len(q)] array whose entries [i][j] and [j][i] both exist and are equal;
    [coulomb] takes no field descriptor, and a call that passes anything
    after [geom] and [q] raises [TypeError]. *)
Theorem coulomb_symmetric_entries (geom : list (list R)) (q : list R) (i j : nat) :
  (i < length q)%nat -> (j < length q)%nat ->
  (exists cm x, call_coulomb geom q [] = Returns cm /\
                shape cm = (length q, length q) /\
                well_shaped cm /\
                entry cm i j = Some x /\
                entry cm j i = Some x) /\
  (forall a more, call_coulomb geom q (a :: more) = Raises TypeError).
Proof.
  intros Hi Hj. split.
  - exists (np.zeros (length q, length q)), (Finite 0).
    split; [apply coulomb_unfold|].
    split; [apply zeros_shape|].
    split; [apply zeros_well_shaped|].
    split; now apply zeros_entry_in.
  - reflexivity.
Qed.

Lemma coulomb_symmetric_entries_witness :
  ((0 < length (charges_of h2))%nat /\ (1 < length (charges_of h2))%nat) /\
  exists cm x, call_coulomb (geom_of h2) (charges_of h2) [] = Returns cm /\
               shape cm = (2%nat, 2%nat) /\
               well_shaped cm /\
               entry cm 0 1 = Some x /\
               entry cm 1 0 = Some x.
Proof.
  assert (H0 : (0 < length (charges_of h2))%nat) by (simpl; lia).
  assert (H1 : (1 < length (charges_of h2))%nat) by (simpl; lia).
  split; [split; assumption|].
  exact (proj1 (coulomb_symmetric_entries (geom_of h2) (charges_of h2) 0 1 H0 H1)).
Defined.

(** C8 as stated fails: with a field vector and coupling strength 0 the
    call does not give what the call without them gives. *)
Lemma coulomb_alpha_zero_differs :
  call_coulomb (geom_of h2) (charges_of h2) [ArgVector [1; 2; 3]; ArgNumber 0]
  <> call_coulomb (geom_of h2) (charges_of h2) [].
Proof. discriminate. Qed.

(** C8, amended: there is no field-extended form of [coulomb]: called with a
    field vector and a coupling strength after [geom] and [q] it raises
    [TypeError], for every vector and every strength, 0 included, while the
    call without them returns its [len(q)] x [len(q)] array. *)
Theorem coulomb_has_no_field_form (geom : list (list R)) (q l : list R) (a : R) :
  call_coulomb geom q [ArgVector l; ArgNumber a] = Raises TypeError /\
  exists cm, call_coulomb geom q [] = Returns cm /\
             shape cm = (length q, length q) /\
             well_shaped cm.
Proof.
  split; [reflexivity|].
  exists (np.zeros (length q, length q)).
  split; [apply coulomb_unfold|].
  split; [apply zeros_shape | apply zeros_well_shaped].
Qed.

(** C6 as stated fails: the call on the empty atom list does not raise
    [InvalidInput]. *)
Lemma coulomb_empty_not_invalid : coulomb_atoms [] <> Raises InvalidInput.
Proof. discriminate. Qed.

(** C6, amended: with an empty charge list [coulomb] raises nothing and
    returns the array of shape 0 x 0, which has no rows. *)
Theorem coulomb_empty_returns_empty (geom : list (list R)) :
  coulomb geom [] = Returns {| shape := (0%nat, 0%nat); rows := [] |}.
Proof. reflexivity. Qed.

(** C7 as stated fails: two atoms at the same position do not make the call
    raise [InvalidInput]. *)
Lemma coulomb_stacked_not_invalid :
  coincident stacked /\ coulomb_atoms stacked <> Raises InvalidInput.
Proof.
  split; [apply stacked_coincident | discriminate].
Qed.

(** C7, amended: [coulomb] makes no check on positions; for an atom list
    with two atoms at the same position it raises nothing and returns an
    [N] x [N] array, [N] rows of [N] entries. *)
Theorem coulomb_coincident_returns_matrix (atoms : list atom) :
  coincident atoms ->
  exists cm, coulomb_atoms atoms = Returns cm /\
             shape cm = (length atoms, length atoms) /\
             well_shaped cm.
Proof.
  intros _. unfold coulomb_atoms. rewrite coulomb_unfold, charges_of_length.
  eexists. split; [reflexivity|].
  split; [apply zeros_shape | apply zeros_well_shaped].
Qed.

Lemma coulomb_coincident_returns_matrix_witness :
  coincident stacked /\
  exists cm, coulomb_atoms stacked = Returns cm /\
             shape cm = (2%nat, 2%nat) /\
             well_shaped cm.
Proof.
  split; [apply stacked_coincident|].
  exact (coulomb_coincident_returns_matrix stacked stacked_coincident).
Defined.

(** C9: reordering the atom list by a permutation [p] of its indices gives
    the array whose entry [i][j] is the entry [p(i)][p(j)] of the array for
    the list in its first order. *)
Theorem coulomb_permutation_equivariant (atoms : list atom) (p : list nat) (i j : nat) :
  is_permutation p (length atoms) ->
  (i < length atoms)%nat -> (j < length atoms)%nat ->
  exists cm cm' x,
    coulomb_atoms atoms = Returns cm /\
    coulomb_atoms (permute origin_atom atoms p) = Returns cm' /\
    entry cm' i j = Some x /\
    entry cm (nth i p 0%nat) (nth j p 0%nat) = Some x.
Proof.
  intros Hp Hi Hj.
  unfold coulomb_atoms. rewrite !coulomb_unfold, !charges_of_length.
  rewrite permute_length, (is_permutation_length _ _ Hp).
  do 2 eexists. exists (Finite 0).
  split; [reflexivity|]. split; [reflexivity|].
  split.
  - now apply zeros_entry_in.
  - apply zeros_entry_in; now apply is_permutation_bound.
Qed.

Lemma coulomb_permutation_equivariant_witness :
  is_permutation [2; 0; 1]%nat (length (water 1)) /\
  exists cm cm' x,
    coulomb_atoms (water 1) = Returns cm /\
    coulomb_atoms (permute origin_atom (water 1) [2; 0; 1]%nat) = Returns cm' /\
    entry cm' 0 1 = Some x /\
    entry cm 2 0 = Some x.
Proof.
  assert (Hp : is_permutation [2; 0; 1]%nat (length (water 1))).
  { unfold is_permutation. simpl.
    change (Permutation (2 :: [0; 1]) ([0; 1] ++ 2 :: []))%nat.
    apply Permutation_cons_app. rewrite app_nil_r. apply Permutation_refl. }
  split; [exact Hp|].
  apply (coulomb_permutation_equivariant (water 1) [2; 0; 1]%nat 0 1 Hp); simpl; lia.
Defined.

(** * Properties of the documented matrix *)

Lemma nth_error_map_seq {A : Type} (f : nat -> A) (n i : nat) :
  nth_error (map f (seq 0 n)) i = if Nat.ltb i n then Some (f i) else None.
Proof.
  destruct (Nat.ltb_spec i n) as [Hi|Hi].
  - rewrite nth_error_map, nth_error_seq.
    apply Nat.ltb_lt in Hi. now rewrite Hi.
  - apply nth_error_None. now rewrite length_map, length_seq.
Qed.

Lemma sum_sq_diff_sym (p p' : list R) : sum_sq_diff p p' = sum_sq_diff p' p.
Proof.
  revert p'. induction p as [|a p IH]; intros [|b p']; try reflexivity.
  unfold sum_sq_diff in *. simpl. rewrite (IH p'). ring.
Qed.

Lemma distance_sym (p p' : list R) : distance p p' = distance p' p.
Proof. unfold distance. now rewrite sum_sq_diff_sym. Qed.

Lemma real_pow_one (y : R) : real_pow 1 y = 1.
Proof.
  unfold real_pow. destruct (Req_dec_T 1 0) as [H|_]; [lra|].
  unfold Rpower. rewrite ln_1, Rmult_0_r. apply exp_0.
Qed.

Lemma real_pow_zero (y : R) : real_pow 0 y = 0.
Proof.
  unfold real_pow. destruct (Req_dec_T 0 0) as [_|H]; [reflexivity | now destruct H].
Qed.

Lemma real_pow_pos (x y : R) : 0 < x -> 0 < real_pow x y.
Proof.
  intros Hx. unfold real_pow. destruct (Req_dec_T x 0) as [H|_]; [lra|].
  apply exp_pos.
Qed.

Module FeatureMatrixBuilderFacts.
Import FeatureMatrixBuilder.

Lemma off_diagonal_sym (a b : atom) : off_diagonal a b = off_diagonal b a.
Proof.
  unfold off_diagonal. rewrite (distance_sym (position a)).
  unfold Rdiv. ring.
Qed.

Lemma cell_sym (atoms : list atom) (field : option field_descriptor) (i j : nat) :
  cell atoms field i j = cell atoms field j i.
Proof.
  unfold cell. rewrite (Nat.eqb_sym j i).
  destruct (Nat.eqb_spec i j) as [->|_]; [reflexivity | apply off_diagonal_sym].
Qed.

Lemma cell_alpha_zero (atoms : list atom) (l : list R) (i j : nat) :
  cell atoms (Some {| lambda := l; alpha := 0 |}) i j = cell atoms None i j.
Proof.
  unfold cell. destruct (Nat.eqb i j); [|reflexivity].
  unfold diagonal, diagonal_field, diagonal_base; simpl. ring.
Qed.

End FeatureMatrixBuilderFacts.

Lemma h2_valid : valid h2.
Proof.
  split; [discriminate|].
  intros [i [j [a [b [Hij [Hi [Hj Hp]]]]]]].
  destruct i as [|[|i]], j as [|[|j]]; simpl in Hi, Hj;
    try (now destruct Hij);
    try (destruct i; discriminate); try (destruct j; discriminate);
    injection Hi as <-; injection Hj as <-; simpl in Hp;
    injection Hp; lra.
Qed.

(** * The function of the notebook against the documented matrix *)

Lemma h2_off_diagonal : FeatureMatrixBuilder.cell h2 None 0 1 = 1.
Proof.
  unfold FeatureMatrixBuilder.cell, FeatureMatrixBuilder.off_diagonal, distance; simpl.
  replace (sum_sq_diff [0; 0; 0] [0; 0; 1]) with 1 by (unfold sum_sq_diff; simpl; ring).
  rewrite sqrt_1. field.
Qed.

Lemma h2_diagonal : FeatureMatrixBuilder.cell h2 None 0 0 = 0.5.
Proof.
  unfold FeatureMatrixBuilder.cell, FeatureMatrixBuilder.diagonal,
    FeatureMatrixBuilder.diagonal_base; simpl.
  rewrite real_pow_one. lra.
Qed.

(** C1 at two unit charges one unit apart: the documented off-diagonal
    entry is [1 * 1 / 1 = 1]; the array [coulomb] returns holds [0] there. *)
Theorem coulomb_off_diagonal_unfilled :
  valid h2 /\
  exists cm, coulomb_atoms h2 = Returns cm /\
             entry cm 0 1 = Some (Finite 0) /\
             FeatureMatrixBuilder.cell h2 None 0 1 = 1 /\
             entry cm 0 1 <> Some (Finite (FeatureMatrixBuilder.cell h2 None 0 1)).
Proof.
  split; [apply h2_valid|].
  eexists. split; [reflexivity|].
  split; [reflexivity|].
  split; [apply h2_off_diagonal|].
  rewrite h2_off_diagonal. cbn. intros H. injection H. lra.
Qed.

(** C2 at the same input: the documented diagonal entry is
    [0.5 * 1^2.4 = 0.5]; the array [coulomb] returns holds [0] there. *)
Theorem coulomb_diagonal_unfilled :
  valid h2 /\
  exists cm, coulomb_atoms h2 = Returns cm /\
             entry cm 0 0 = Some (Finite 0) /\
             FeatureMatrixBuilder.cell h2 None 0 0 = 0.5 /\
             entry cm 0 0 <> Some (Finite (FeatureMatrixBuilder.cell h2 None 0 0)).
Proof.
  split; [apply h2_valid|].
  eexists. split; [reflexivity|].
  split; [reflexivity|].
  split; [apply h2_diagonal|].
  rewrite h2_diagonal. cbn. intros H. injection H. lra.
Qed.


(** * The reference matrix of the notebook *)

(** ** Numeric bounds *)

Lemma PI_bounds : 3.141592 <= PI <= 3.141593.
Proof.
  pose proof (PI_2_3_7_ineq 4) as [Hlo Hhi].
  unfold sum_f_R0, tg_alt, PI_2_3_7_tg, Ratan_seq in Hlo, Hhi.
  simpl in Hlo, Hhi.
  split; lra.
Qed.

Lemma sin_approx_1 (a : R) : sin_approx a 1 = a - a ^ 3 / 6.
Proof. unfold sin_approx, sin_term, sum_f_R0. simpl. field. Qed.

Lemma sin_approx_2 (a : R) : sin_approx a 2 = a - a ^ 3 / 6 + a ^ 5 / 120.
Proof. unfold sin_approx, sin_term, sum_f_R0. simpl. field. Qed.

Lemma sin_14_5_degrees : 0.250371 <= sin (14.5 * PI / 180) <= 0.2503801.
Proof.
  pose proof PI_bounds as [Hlo Hhi].
  assert (Hxl : 0.25307268 <= 14.5 * PI / 180) by lra.
  assert (Hxu : 14.5 * PI / 180 <= 0.25307277) by lra.
  split.
  - apply Rle_trans with (sin 0.25307268).
    + destruct (sin_bound 0.25307268 0) as [H _]; [lra | lra |].
      change (2 * 0 + 1)%nat with 1%nat in H.
      rewrite sin_approx_1 in H. lra.
    + apply sin_incr_1; lra.
  - apply Rle_trans with (sin 0.25307277).
    + apply sin_incr_1; lra.
    + destruct (sin_bound 0.25307277 0) as [_ H]; [lra | lra |].
      change (2 * (0 + 1))%nat with 2%nat in H.
      rewrite sin_approx_2 in H. lra.
Qed.

Lemma cos_hoh_angle : -0.2503801 <= cos hoh_angle <= -0.250371.
Proof.
  unfold hoh_angle.
  replace (104.5 * PI / 180) with (PI / 2 - - (14.5 * PI / 180)) by lra.
  rewrite cos_shift, sin_neg.
  pose proof sin_14_5_degrees. lra.
Qed.

Lemma sin_hoh_angle_pos : 0 < sin hoh_angle.
Proof.
  pose proof PI_bounds as [Hlo Hhi].
  apply sin_gt_0; unfold hoh_angle; lra.
Qed.

(** [8 ** 2.4], from [(8 ** 2.4) ^ 5 = 8 ^ 12]. *)
Lemma Rpower_8_12_5 : 147.03338 <= Rpower 8 2.4 <= 147.03340.
Proof.
  set (y := Rpower 8 2.4).
  assert (Hy : 0 < y) by apply exp_pos.
  assert (H5 : y ^ 5 = 8 ^ 12).
  { rewrite <- (Rpower_pow 5 y Hy). unfold y. rewrite Rpower_mult.
    replace (2.4 * INR 5) with (INR 12) by (simpl; lra).
    apply Rpower_pow. lra. }
  split.
  - destruct (Rle_lt_dec 147.03338 y) as [H|H]; [exact H|].
    assert (Hp : y ^ 5 <= 147.03338 ^ 5) by (apply pow_incr; lra).
    rewrite H5 in Hp. lra.
  - destruct (Rle_lt_dec y 147.03340) as [H|H]; [exact H|].
    assert (Hp : 147.03340 ^ 5 <= y ^ 5) by (apply pow_incr; lra).
    rewrite H5 in Hp. lra.
Qed.

Lemma real_pow_8_12_5 : 147.03338 <= real_pow 8 2.4 <= 147.03340.
Proof.
  unfold real_pow. destruct (Req_dec_T 8 0) as [H|_]; [lra|].
  apply Rpower_8_12_5.
Qed.

Lemma sqrt_between (x lo hi : R) :
  0 <= lo -> 0 <= hi -> lo * lo <= x <= hi * hi -> lo <= sqrt x <= hi.
Proof.
  intros Hlo Hhi [H1 H2]. split.
  - rewrite <- (sqrt_square lo Hlo). now apply sqrt_le_1_alt.
  - rewrite <- (sqrt_square hi Hhi). now apply sqrt_le_1_alt.
Qed.

Lemma quotient_between (n d lo hi : R) :
  0 < d -> lo * d <= n <= hi * d -> lo <= n / d <= hi.
Proof.
  intros Hd [H1 H2]. split.
  - apply Rmult_le_reg_r with d; [exact Hd|].
    replace (n / d * d) with n by (field; lra). exact H1.
  - apply Rmult_le_reg_r with d; [exact Hd|].
    replace (n / d * d) with n by (field; lra). exact H2.
Qed.

(** ** Distances in the water geometry *)

Section Water.

Variable r : R.
Hypothesis r_pos : 0 < r.

Lemma water_O_H1 : distance [0; 0; 0] [r; 0; 0] = r.
Proof.
  unfold distance, sum_sq_diff; simpl.
  replace ((0 - r) * (0 - r) + ((0 - 0) * (0 - 0) + ((0 - 0) * (0 - 0) + 0)))
    with (r * r) by ring.
  apply sqrt_square. lra.
Qed.

Lemma water_O_H2 :
  distance [0; 0; 0] [r * cos hoh_angle; r * sin hoh_angle; 0] = r.
Proof.
  unfold distance, sum_sq_diff; simpl.
  pose proof (sin2_cos2 hoh_angle) as Hsc. unfold Rsqr in Hsc.
  replace ((0 - r * cos hoh_angle) * (0 - r * cos hoh_angle)
           + ((0 - r * sin hoh_angle) * (0 - r * sin hoh_angle) + ((0 - 0) * (0 - 0) + 0)))
    with (r * r * (sin hoh_angle * sin hoh_angle + cos hoh_angle * cos hoh_angle)) by ring.
  rewrite Hsc, Rmult_1_r.
  apply sqrt_square. lra.
Qed.

Lemma water_H1_H2 :
  distance [r; 0; 0] [r * cos hoh_angle; r * sin hoh_angle; 0]
  = r * sqrt (2 - 2 * cos hoh_angle).
Proof.
  unfold distance, sum_sq_diff; simpl.
  pose proof (sin2_cos2 hoh_angle) as Hsc. unfold Rsqr in Hsc.
  pose proof cos_hoh_angle as [Hc1 Hc2].
  replace ((r - r * cos hoh_angle) * (r - r * cos hoh_angle)
           + ((0 - r * sin hoh_angle) * (0 - r * sin hoh_angle) + ((0 - 0) * (0 - 0) + 0)))
    with (r * r * (sin hoh_angle * sin hoh_angle + cos hoh_angle * cos hoh_angle
                   + 1 - 2 * cos hoh_angle)) by ring.
  rewrite Hsc.
  replace (1 + 1 - 2 * cos hoh_angle) with (2 - 2 * cos hoh_angle) by ring.
  rewrite sqrt_mult; [ | nra | lra].
  rewrite sqrt_square; lra.
Qed.

Lemma water_H1_H2_between :
  r * 1.581373
  <= distance [r; 0; 0] [r * cos hoh_angle; r * sin hoh_angle; 0]
  <= r * 1.58138.
Proof.
  rewrite water_H1_H2.
  pose proof cos_hoh_angle as [Hc1 Hc2].
  destruct (sqrt_between (2 - 2 * cos hoh_angle) 1.581373 1.58138) as [Hs1 Hs2];
    [lra | lra | split; lra |].
  split; apply Rmult_le_compat_l; lra.
Qed.

End Water.

(** ** The documented matrix of the water geometry *)

Lemma water_valid (r : R) : 0 < r -> valid (water r).
Proof.
  intros Hr. pose proof sin_hoh_angle_pos as Hs.
  assert (Hrs : 0 < r * sin hoh_angle) by (apply Rmult_lt_0_compat; assumption).
  split; [discriminate|].
  intros [i [j [a [b [Hij [Hi [Hj Hp]]]]]]].
  destruct i as [|[|[|i]]], j as [|[|[|j]]]; simpl in Hi, Hj;
    try (now destruct Hij);
    try (destruct i; discriminate); try (destruct j; discriminate);
    injection Hi as <-; injection Hj as <-; simpl in Hp;
    injection Hp; intros; lra.
Qed.

Lemma water_cell_O (r : R) :
  FeatureMatrixBuilder.cell (water r) None 0 0 = 0.5 * real_pow 8 2.4.
Proof. reflexivity. Qed.

Lemma water_cell_H1 (r : R) :
  FeatureMatrixBuilder.cell (water r) None 1 1 = 0.5.
Proof.
  change (FeatureMatrixBuilder.cell (water r) None 1 1) with (0.5 * real_pow 1 2.4).
  rewrite real_pow_one. lra.
Qed.

Lemma water_cell_H2 (r : R) :
  FeatureMatrixBuilder.cell (water r) None 2 2 = 0.5.
Proof.
  change (FeatureMatrixBuilder.cell (water r) None 2 2) with (0.5 * real_pow 1 2.4).
  rewrite real_pow_one. lra.
Qed.

Lemma water_cell_O_H1 (r : R) :
  0 < r -> FeatureMatrixBuilder.cell (water r) None 0 1 = 8 / r.
Proof.
  intros Hr.
  change (FeatureMatrixBuilder.cell (water r) None 0 1)
    with (8 * 1 / distance [0; 0; 0] [r; 0; 0]).
  rewrite (water_O_H1 r Hr). field. lra.
Qed.

Lemma water_cell_O_H2 (r : R) :
  0 < r -> FeatureMatrixBuilder.cell (water r) None 0 2 = 8 / r.
Proof.
  intros Hr.
  change (FeatureMatrixBuilder.cell (water r) None 0 2)
    with (8 * 1 / distance [0; 0; 0] [r * cos hoh_angle; r * sin hoh_angle; 0]).
  rewrite (water_O_H2 r Hr). field. lra.
Qed.

Lemma water_cell_H1_H2 (r : R) :
  0 < r ->
  FeatureMatrixBuilder.cell (water r) None 1 2
  = 1 / distance [r; 0; 0] [r * cos hoh_angle; r * sin hoh_angle; 0].
Proof.
  intros Hr.
  change (FeatureMatrixBuilder.cell (water r) None 1 2)
    with (1 * 1 / distance [r; 0; 0] [r * cos hoh_angle; r * sin hoh_angle; 0]).
  pose proof (water_H1_H2_between r Hr) as [Hd _].
  field. nra.
Qed.

Section FirstScanPoint.

Variable r : R.
Hypothesis r_near : 0.94486305 <= r <= 0.94486307.

Lemma first_O : Rabs (FeatureMatrixBuilder.cell (water r) None 0 0 - 73.51669472) <= 1 / 100000.
Proof.
rewrite water_cell_O. pose proof real_pow_8_12_5.
apply Rabs_le. lra.
Qed.

Lemma first_O_H : Rabs (8 / r - 8.46683537) <= 1 / 100000.
Proof.
destruct (quotient_between 8 r 8.466835 8.466836) as [Hlo Hhi]; [lra | lra |].
apply Rabs_le. lra.
Qed.

Lemma first_H_H :
Rabs (FeatureMatrixBuilder.cell (water r) None 1 2 - 0.66926039) <= 1 / 100000.
Proof.
assert (Hr : 0 < r) by lra.
rewrite (water_cell_H1_H2 r Hr).
pose proof (water_H1_H2_between r Hr) as [Hd1 Hd2].
destruct (quotient_between 1
            (distance [r; 0; 0] [r * cos hoh_angle; r * sin hoh_angle; 0])
            0.66926 0.669264) as [Hlo Hhi]; [lra | lra |].
apply Rabs_le. lra.
Qed.

Lemma first_scan_point_within :
  documented_within (1 / 100000) (water r) reference.
Proof.
  assert (Hr : 0 < r) by lra.
  intros i j x Hx.
  destruct i as [|[|[|i]]], j as [|[|[|j]]]; simpl in Hx;
    try (destruct i; discriminate); try (destruct j; discriminate);
    injection Hx as <-.
  - apply first_O.
  - rewrite (water_cell_O_H1 r Hr). apply first_O_H.
  - rewrite (water_cell_O_H2 r Hr). apply first_O_H.
  - rewrite FeatureMatrixBuilderFacts.cell_sym, (water_cell_O_H1 r Hr). apply first_O_H.
  - rewrite water_cell_H1. apply Rabs_le. lra.
  - apply first_H_H.
  - rewrite FeatureMatrixBuilderFacts.cell_sym, (water_cell_O_H2 r Hr). apply first_O_H.
  - rewrite FeatureMatrixBuilderFacts.cell_sym. apply first_H_H.
  - rewrite water_cell_H2. apply Rabs_le. lra.
Qed.

End FirstScanPoint.

(** At O-H distance [r] the documented O-H entry is [8 / r]; it is within
    1e-5 of the reference value 8.46683537 only for [r] near 0.944863. *)
Lemma water_far_from_reference (r : R) :
  0 < r -> r < 0.94486 \/ 0.94487 < r ->
  ~ documented_within (1 / 100000) (water r) reference.
Proof.
  intros Hr Hfar Hw.
  pose proof (Hw 0%nat 1%nat 8.46683537 eq_refl) as Hclose.
  rewrite (water_cell_O_H1 r Hr) in Hclose.
  assert (Hq : 8 / r * r = 8) by (field; lra).
  unfold Rabs in Hclose.
  destruct (Rcase_abs (8 / r - 8.46683537)), Hfar; nra.
Qed.

(** The reference matrix is the documented matrix of the first point of the
    notebook's scan, O-H distance 0.5 angstrom (0.944863 bohr) at 104.5
    degrees, matched there within 1e-5 in every entry; it is not the
    documented matrix at O-H distance 0.9584, taken in bohr or converted
    from angstrom. *)
Lemma reference_is_documented_first_scan_point :
  documented_within (1 / 100000) (water (to_bohr 0.5)) reference /\
  ~ documented_within (1 / 100000) (water 0.9584) reference /\
  ~ documented_within (1 / 100000) (water (to_bohr 0.9584)) reference.
Proof.
  split.
  - apply first_scan_point_within. unfold to_bohr, bohr2angstroms. lra.
  - split; apply water_far_from_reference;
      unfold to_bohr, bohr2angstroms; lra.
Qed.

(** * The cells around [coulomb]: properties *)

(** A loop that appends [f x] for each [x] builds the image of the list. *)
Lemma fold_left_append_map {A B : Type} (f : A -> B) (l : list A) (acc : list B) :
  fold_left (fun acc x => acc ++ [f x]) l acc = acc ++ map f l.
Proof.
  revert acc. induction l as [|x l IH]; intros acc; simpl.
  - now rewrite app_nil_r.
  - rewrite IH, <- app_assoc. reflexivity.
Qed.

(** ** The bond-length grid *)

Lemma bond_lengths_map (n : nat) :
  bond_lengths n = map (fun i => 0.5 + INR i * 0.05) (seq 0 n).
Proof. unfold bond_lengths. now rewrite fold_left_append_map. Qed.

Lemma bond_lengths_length (n : nat) : length (bond_lengths n) = n.
Proof. now rewrite bond_lengths_map, length_map, length_seq. Qed.

Lemma bond_lengths_nth (n k : nat) :
  (k < n)%nat -> nth_error (bond_lengths n) k = Some (0.5 + INR k * 0.05).
Proof.
  intros Hk. rewrite bond_lengths_map, nth_error_map_seq.
  apply Nat.ltb_lt in Hk. now rewrite Hk.
Qed.

Lemma grid_sorted_from (k m : nat) :
  StronglySorted Rlt (map (fun i => 0.5 + INR i * 0.05) (seq k m)).
Proof.
  revert k. induction m as [|m IH]; intros k; simpl; constructor.
  - apply IH.
  - apply Forall_forall. intros x Hx.
    apply in_map_iff in Hx. destruct Hx as [i [<- Hi]].
    apply in_seq in Hi.
    assert (INR k < INR i) by (apply lt_INR; lia). lra.
Qed.

Lemma bond_lengths_sorted (n : nat) : StronglySorted Rlt (bond_lengths n).
Proof. rewrite bond_lengths_map. apply grid_sorted_from. Qed.

Lemma bond_lengths_range (n : nat) :
  Forall (fun x => 0.5 <= x <= 0.5 + INR (n - 1) * 0.05) (bond_lengths n).
Proof.
  rewrite bond_lengths_map. apply Forall_forall. intros x Hx.
  apply in_map_iff in Hx. destruct Hx as [i [<- Hi]].
  apply in_seq in Hi.
  assert (0 <= INR i) by apply pos_INR.
  assert (INR i <= INR (n - 1)) by (apply le_INR; lia).
  lra.
Qed.

(** X1: the grid [rs] has 31 bond lengths, starts at 0.5, ends at 2.0,
    increases strictly and stays between these two values. *)
Theorem rs_grid :
  length rs = 31%nat /\
  nth_error rs 0 = Some 0.5 /\
  nth_error rs 30 = Some 2 /\
  StronglySorted Rlt rs /\
  Forall (fun x => 0.5 <= x <= 2) rs.
Proof.
  unfold rs.
  split; [apply bond_lengths_length|].
  split; [rewrite bond_lengths_nth by lia; f_equal; simpl; lra|].
  split; [rewrite bond_lengths_nth by lia; f_equal; simpl; lra|].
  split; [apply bond_lengths_sorted|].
  eapply Forall_impl; [|apply bond_lengths_range].
  simpl. intros x Hx. lra.
Qed.

(** ** The scan *)

Section ScanFacts.

Variable Molecule : Type.
Variable psi4_geometry : R -> Molecule.
Variable to_array : Molecule -> list (list R).
Variable fZ : Molecule -> nat -> R.
Variable psi4_energy : Molecule -> R.

Lemma molecule_charges_three (mol : Molecule) :
  molecule_charges Molecule fZ mol = [fZ mol 0%nat; fZ mol 1%nat; fZ mol 2%nat].
Proof. reflexivity. Qed.

Lemma scan_from (lengths : list R) (st : scan_lists) :
  fold_left (scan_step Molecule psi4_geometry to_array fZ psi4_energy) lengths st
  = {| st_geoms := st_geoms st ++ map (fun i => to_array (psi4_geometry i)) lengths;
       st_qs := st_qs st ++ map (fun i => molecule_charges Molecule fZ (psi4_geometry i)) lengths;
       st_Es := st_Es st ++ map (fun i => psi4_energy (psi4_geometry i)) lengths |}.
Proof.
  revert st. induction lengths as [|i lengths IH]; intros st; simpl.
  - rewrite !app_nil_r. now destruct st.
  - rewrite IH. unfold scan_step; simpl. now rewrite <- !app_assoc.
Qed.

Lemma scan_maps (lengths : list R) :
  scan Molecule psi4_geometry to_array fZ psi4_energy lengths
  = {| st_geoms := map (fun i => to_array (psi4_geometry i)) lengths;
       st_qs := map (fun i => molecule_charges Molecule fZ (psi4_geometry i)) lengths;
       st_Es := map (fun i => psi4_energy (psi4_geometry i)) lengths |}.
Proof. unfold scan. now rewrite scan_from. Qed.

(** X2: after the scan the three lists have one entry per bond length, in
    the order of the bond lengths: entry [k] of each list is the geometry,
    the three charges and the energy of the molecule built for bond length
    [k]. *)
Theorem scan_lists_aligned (lengths : list R) :
  length (st_geoms (scan Molecule psi4_geometry to_array fZ psi4_energy lengths)) = length lengths /\
  length (st_qs (scan Molecule psi4_geometry to_array fZ psi4_energy lengths)) = length lengths /\
  length (st_Es (scan Molecule psi4_geometry to_array fZ psi4_energy lengths)) = length lengths /\
  Forall (fun q => length q = 3%nat) (st_qs (scan Molecule psi4_geometry to_array fZ psi4_energy lengths)) /\
  forall k, nth_error (st_geoms (scan Molecule psi4_geometry to_array fZ psi4_energy lengths)) k
            = option_map (fun i => to_array (psi4_geometry i)) (nth_error lengths k)
         /\ nth_error (st_qs (scan Molecule psi4_geometry to_array fZ psi4_energy lengths)) k
            = option_map (fun i => [fZ (psi4_geometry i) 0%nat;
                                    fZ (psi4_geometry i) 1%nat;
                                    fZ (psi4_geometry i) 2%nat]) (nth_error lengths k)
         /\ nth_error (st_Es (scan Molecule psi4_geometry to_array fZ psi4_energy lengths)) k
            = option_map (fun i => psi4_energy (psi4_geometry i)) (nth_error lengths k).
Proof.
  rewrite scan_maps; simpl. rewrite !length_map.
  repeat split; try reflexivity.
  - apply Forall_forall. intros q Hq.
    apply in_map_iff in Hq. now destruct Hq as [i [<- _]].
  - apply nth_error_map.
  - rewrite nth_error_map. now destruct (nth_error lengths k).
  - apply nth_error_map.
Qed.

End ScanFacts.

(** ** The loop that calls [coulomb] *)

Lemma couls_loop_returns (gs : list (list (list R))) (qss : list (list R)) (m k : nat)
    (acc : list ndarray) :
  (k + m <= length gs)%nat -> (k + m <= length qss)%nat ->
  couls_loop gs qss (seq k m) acc
  = Returns (acc ++ map zeros_for (firstn m (skipn k qss))).
Proof.
  revert k acc. induction m as [|m IH]; intros k acc Hg Hq; simpl.
  - now rewrite app_nil_r.
  - destruct (nth_error gs k) as [g|] eqn:Eg.
    2:{ apply nth_error_None in Eg. lia. }
    destruct (nth_error qss k) as [q|] eqn:Eq.
    2:{ apply nth_error_None in Eq. lia. }
    rewrite IH by lia.
    destruct (nth_error_split _ _ Eq) as [l1 [l2 [Hsplit Hlen]]].
    assert (Hk : skipn k qss = q :: l2).
    { rewrite Hsplit, <- Hlen, skipn_app, skipn_all, Nat.sub_diag. reflexivity. }
    assert (HSk : skipn (S k) qss = l2).
    { change (S k) with (1 + k)%nat. now rewrite <- skipn_skipn, Hk. }
    rewrite Hk, HSk. simpl. rewrite <- app_assoc. reflexivity.
Qed.

Lemma couls_loop_short (gs : list (list (list R))) (qss : list (list R)) (m k : nat)
    (acc : list ndarray) :
  (k <= length qss)%nat -> (length qss < k + m)%nat ->
  couls_loop gs qss (seq k m) acc = Raises IndexError.
Proof.
  revert k acc. induction m as [|m IH]; intros k acc Hk Hm; simpl; [lia|].
  destruct (nth_error gs k) as [g|]; [|reflexivity].
  destruct (nth_error qss k) as [q|] eqn:Eq.
  - assert (k < length qss)%nat by (apply nth_error_Some; congruence).
    apply IH; lia.
  - reflexivity.
Qed.

(** X3: when the charge lists are at least as many as the geometries, the
    loop raises nothing and returns one array per geometry, the [i]-th one
    the zero array sized by the [i]-th charge list; charge lists past the
    last geometry are not used. *)
Theorem generate_couls_returns (gs : list (list (list R))) (qss : list (list R)) :
  (length gs <= length qss)%nat ->
  generate_couls gs qss = Returns (map zeros_for (firstn (length gs) qss)).
Proof.
  intros H. unfold generate_couls.
  now rewrite couls_loop_returns by (simpl; lia).
Qed.

Lemma generate_couls_returns_witness :
  (length [[[0; 0; 0]]]%R <= length [[1]; [1; 1]]%R)%nat /\
  generate_couls [[[0; 0; 0]]] [[1]; [1; 1]] = Returns [np.zeros (1%nat, 1%nat)].
Proof.
  assert (H : (length [[[0; 0; 0]]]%R <= length [[1]; [1; 1]]%R)%nat) by (simpl; lia).
  split; [exact H|].
  exact (generate_couls_returns [[[0; 0; 0]]] [[1]; [1; 1]] H).
Defined.

(** X4: when there are fewer charge lists than geometries, the loop raises
    [IndexError] (at the first geometry without a charge list) and no list
    of arrays is produced. *)
Theorem generate_couls_index_error (gs : list (list (list R))) (qss : list (list R)) :
  (length qss < length gs)%nat ->
  generate_couls gs qss = Raises IndexError.
Proof.
  intros H. unfold generate_couls.
  apply couls_loop_short; simpl; lia.
Qed.

Lemma generate_couls_index_error_witness :
  (length [[8; 1; 1]]%R < length [[[0; 0; 0]]; [[1; 0; 0]]]%R)%nat /\
  generate_couls [[[0; 0; 0]]; [[1; 0; 0]]] [[8; 1; 1]] = Raises IndexError.
Proof.
  assert (H : (length [[8; 1; 1]]%R < length [[[0; 0; 0]]; [[1; 0; 0]]]%R)%nat) by (simpl; lia).
  split; [exact H|].
  exact (generate_couls_index_error [[[0; 0; 0]]; [[1; 0; 0]]] [[8; 1; 1]] H).
Defined.

(** X5: on the lists the scan produces, whatever psi4 computes, the loop
    returns one 3 x 3 array of zeros per bond length: all the matrices of
    the scan are the same array. *)
Theorem couls_of_scan (Molecule : Type) (psi4_geometry : R -> Molecule)
    (to_array : Molecule -> list (list R)) (fZ : Molecule -> nat -> R)
    (psi4_energy : Molecule -> R) (lengths : list R) :
  generate_couls (st_geoms (scan Molecule psi4_geometry to_array fZ psi4_energy lengths))
                 (st_qs (scan Molecule psi4_geometry to_array fZ psi4_energy lengths))
  = Returns (repeat (np.zeros (3%nat, 3%nat)) (length lengths)).
Proof.
  rewrite scan_maps; simpl.
  rewrite generate_couls_returns by (rewrite !length_map; lia).
  f_equal. rewrite length_map.
  rewrite <- (length_map (fun i => molecule_charges Molecule fZ (psi4_geometry i)) lengths) at 1.
  rewrite firstn_all, map_map.
  induction lengths as [|i lengths IH]; simpl; [reflexivity|].
  now rewrite IH.
Qed.

(** ** Training and test sets *)

Lemma flatten_zeros (r c : nat) :
  flatten (np.zeros (r, c)) = repeat (Finite 0) (r * c).
Proof.
  unfold flatten; simpl.
  induction r as [|r IH]; simpl; [reflexivity|].
  now rewrite IH, repeat_app.
Qed.

Lemma select_loop_returns (couls : list ndarray) (energies : list R) (idx : list nat)
    (X : list (list float64)) (y : list R) :
  Forall (fun t => (t < length couls)%nat /\ (t < length energies)%nat) idx ->
  select_loop couls energies idx X y
  = Returns (X ++ map (fun t => flatten (nth t couls (np.zeros (0%nat, 0%nat)))) idx,
             y ++ map (fun t => nth t energies 0) idx).
Proof.
  revert X y. induction idx as [|t idx IH]; intros X y H; simpl.
  - now rewrite !app_nil_r.
  - inversion H as [|? ? [Hc He] Hrest]; subst.
    destruct (nth_error couls t) as [c|] eqn:Ec.
    2:{ apply nth_error_None in Ec. lia. }
    destruct (nth_error energies t) as [e|] eqn:Ee.
    2:{ apply nth_error_None in Ee. lia. }
    rewrite (IH _ _ Hrest), <- !app_assoc. simpl.
    apply (nth_error_nth _ _ (np.zeros (0%nat, 0%nat))) in Ec.
    apply (nth_error_nth _ _ 0) in Ee.
    now rewrite Ec, Ee.
Qed.

Lemma select_loop_index_error (couls : list ndarray) (energies : list R) (idx : list nat)
    (X : list (list float64)) (y : list R) :
  Exists (fun t => (length couls <= t)%nat \/ (length energies <= t)%nat) idx ->
  select_loop couls energies idx X y = Raises IndexError.
Proof.
  intros H. revert X y. induction H as [t idx Ht | t idx _ IH]; intros X y; simpl.
  - destruct (nth_error couls t) as [c|] eqn:Ec; [|reflexivity].
    destruct (nth_error energies t) as [e|] eqn:Ee; [|reflexivity].
    assert (t < length couls)%nat by (apply nth_error_Some; congruence).
    assert (t < length energies)%nat by (apply nth_error_Some; congruence).
    lia.
  - destruct (nth_error couls t) as [c|]; [|reflexivity].
    destruct (nth_error energies t) as [e|]; [|reflexivity].
    apply IH.
Qed.

(** X6: when every chosen index is within both the list of matrices and the
    list of energies, the selection returns one flattened matrix and one
    energy per index, in the order of the indices. *)
Theorem select_returns (couls : list ndarray) (energies : list R) (idx : list nat) :
  Forall (fun t => (t < length couls)%nat /\ (t < length energies)%nat) idx ->
  exists X y, select couls energies idx = Returns (X, y) /\
    length X = length idx /\ length y = length idx /\
    forall k t, nth_error idx k = Some t ->
      nth_error X k = option_map flatten (nth_error couls t) /\
      nth_error y k = nth_error energies t.
Proof.
  intros H. unfold select. rewrite (select_loop_returns _ _ _ _ _ H). simpl.
  do 2 eexists. split; [reflexivity|].
  rewrite !length_map. split; [reflexivity|]. split; [reflexivity|].
  intros k t Hk.
  rewrite !nth_error_map, Hk. simpl.
  rewrite Forall_forall in H. destruct (H t (nth_error_In _ _ Hk)) as [Hc He].
  split.
  - destruct (nth_error couls t) as [c|] eqn:Ec.
    + now rewrite (nth_error_nth _ _ _ Ec).
    + apply nth_error_None in Ec. lia.
  - destruct (nth_error energies t) as [e|] eqn:Ee.
    + now rewrite (nth_error_nth _ _ _ Ee).
    + apply nth_error_None in Ee. lia.
Qed.

Lemma select_returns_witness :
  Forall (fun t => (t < length [np.zeros (1%nat, 1%nat); np.zeros (2%nat, 2%nat)])%nat /\
                   (t < length [3; 4]%R)%nat) [1%nat; 0%nat] /\
  exists X y, select [np.zeros (1%nat, 1%nat); np.zeros (2%nat, 2%nat)] [3; 4] [1%nat; 0%nat]
              = Returns (X, y) /\
    length X = 2%nat /\ length y = 2%nat /\
    forall k t, nth_error [1%nat; 0%nat] k = Some t ->
      nth_error X k
      = option_map flatten (nth_error [np.zeros (1%nat, 1%nat); np.zeros (2%nat, 2%nat)] t) /\
      nth_error y k = nth_error [3; 4] t.
Proof.
  assert (H : Forall (fun t => (t < length [np.zeros (1%nat, 1%nat); np.zeros (2%nat, 2%nat)])%nat /\
                               (t < length [3; 4]%R)%nat) [1%nat; 0%nat]).
  { repeat constructor; simpl; lia. }
  split; [exact H|].
  exact (select_returns _ _ _ H).
Defined.

(** X7: when some chosen index is past the end of the list of matrices or
    of the list of energies, the selection raises [IndexError]. *)
Theorem select_index_error (couls : list ndarray) (energies : list R) (idx : list nat) :
  Exists (fun t => (length couls <= t)%nat \/ (length energies <= t)%nat) idx ->
  select couls energies idx = Raises IndexError.
Proof. intros H. now apply select_loop_index_error. Qed.

Lemma select_index_error_witness :
  Exists (fun t => (length [np.zeros (1%nat, 1%nat)] <= t)%nat \/ (length [3; 4]%R <= t)%nat)
         [0%nat; 1%nat] /\
  select [np.zeros (1%nat, 1%nat)] [3; 4] [0%nat; 1%nat] = Raises IndexError.
Proof.
  assert (H : Exists (fun t => (length [np.zeros (1%nat, 1%nat)] <= t)%nat \/
                               (length [3; 4]%R <= t)%nat) [0%nat; 1%nat]).
  { apply Exists_cons_tl, Exists_cons_hd. left. simpl. lia. }
  split; [exact H|].
  exact (select_index_error _ _ _ H).
Defined.

(** X8: the feature vectors selected from the matrices the loop over
    [coulomb] produces hold only zeros, whatever the geometries, charges
    and indices: the features of two molecules of the same size are equal. *)
Theorem features_of_couls_are_zero (gs : list (list (list R))) (qss : list (list R))
    (energies : list R) (idx : list nat) (couls : list ndarray)
    (X : list (list float64)) (y : list R) :
  generate_couls gs qss = Returns couls ->
  select couls energies idx = Returns (X, y) ->
  Forall (Forall (fun v => v = Finite 0)) X.
Proof.
  intros Hc Hs.
  destruct (Nat.le_gt_cases (length gs) (length qss)) as [Hle|Hgt].
  2:{ rewrite generate_couls_index_error in Hc by exact Hgt. discriminate. }
  rewrite generate_couls_returns in Hc by exact Hle. injection Hc as <-.
  set (couls := map zeros_for (firstn (length gs) qss)) in *.
  assert (Hall : Forall (fun t => (t < length couls)%nat /\ (t < length energies)%nat) idx).
  { apply Forall_forall. intros t Ht.
    destruct (Nat.lt_ge_cases t (length couls)) as [H1|H1],
             (Nat.lt_ge_cases t (length energies)) as [H2|H2]; try (split; assumption);
    exfalso;
    (assert (He : Exists (fun t => (length couls <= t)%nat \/ (length energies <= t)%nat) idx)
       by (apply Exists_exists; exists t; split; [exact Ht | lia]));
    rewrite (select_index_error _ _ _ He) in Hs; discriminate. }
  unfold select in Hs. rewrite (select_loop_returns _ _ _ _ _ Hall) in Hs.
  simpl in Hs. injection Hs as <- _.
  apply Forall_forall. intros row Hrow.
  apply in_map_iff in Hrow. destruct Hrow as [t [<- Ht]].
  rewrite Forall_forall in Hall. destruct (Hall t Ht) as [Hlt _].
  assert (Hin : In (nth t couls (np.zeros (0%nat, 0%nat))) couls) by (now apply nth_In).
  apply in_map_iff in Hin. destruct Hin as [q [<- _]].
  unfold zeros_for. rewrite flatten_zeros.
  apply Forall_forall. intros v Hv. now apply repeat_spec in Hv.
Qed.

Lemma features_of_couls_are_zero_witness :
  generate_couls [[[0; 0; 0]]] [[1]] = Returns [np.zeros (1%nat, 1%nat)] /\
  select [np.zeros (1%nat, 1%nat)] [3] [0%nat] = Returns ([[Finite 0]], [3]) /\
  Forall (Forall (fun v => v = Finite 0)) [[Finite 0]].
Proof.
  assert (H1 : generate_couls [[[0; 0; 0]]] [[1]] = Returns [np.zeros (1%nat, 1%nat)])
    by reflexivity.
  assert (H2 : select [np.zeros (1%nat, 1%nat)] [3] [0%nat] = Returns ([[Finite 0]], [3]))
    by reflexivity.
  split; [exact H1|]. split; [exact H2|].
  exact (features_of_couls_are_zero _ _ _ _ _ _ _ H1 H2).
Defined.

(** ** The test indices *)

Lemma insert_desc_perm (t : nat) (l : list nat) : Permutation (insert_desc t l) (t :: l).
Proof.
  induction l as [|x l IH]; simpl; [apply Permutation_refl|].
  destruct (Nat.leb x t); [apply Permutation_refl|].
  apply Permutation_trans with (x :: t :: l).
  - now apply perm_skip.
  - apply perm_swap.
Qed.

Lemma sorted_reverse_perm (l : list nat) : Permutation (sorted_reverse l) l.
Proof.
  induction l as [|t l IH]; simpl; [apply perm_nil|].
  apply Permutation_trans with (t :: sorted_reverse l).
  - apply insert_desc_perm.
  - now apply perm_skip.
Qed.

Lemma insert_desc_sorted (t : nat) (l : list nat) :
  StronglySorted ge l -> StronglySorted ge (insert_desc t l).
Proof.
  induction l as [|x l IH]; intros Hs; simpl.
  - constructor; constructor.
  - destruct (Nat.leb_spec x t) as [Hle|Hlt].
    + constructor; [exact Hs|].
      constructor; [lia|].
      inversion Hs as [|? ? _ Hall]; subst.
      eapply Forall_impl; [|exact Hall]. simpl. intros y Hy. lia.
    + inversion Hs as [|? ? Hs' Hall]; subst.
      constructor; [now apply IH|].
      apply Forall_forall. intros y Hy.
      apply (Permutation_in _ (insert_desc_perm t l)) in Hy.
      destruct Hy as [<-|Hy]; [lia|].
      rewrite Forall_forall in Hall. now apply Hall.
Qed.

Lemma sorted_reverse_sorted (l : list nat) : StronglySorted ge (sorted_reverse l).
Proof.
  induction l as [|t l IH]; simpl; [constructor|].
  now apply insert_desc_sorted.
Qed.

Lemma sorted_nodup_strict (l : list nat) :
  StronglySorted ge l -> NoDup l -> StronglySorted gt l.
Proof.
  induction 1 as [|x l Hs IH Hall]; intros Hnd; constructor.
  - apply IH. now inversion Hnd.
  - inversion Hnd as [|? ? Hnotin _]; subst.
    apply Forall_forall. intros y Hy.
    rewrite Forall_forall in Hall. specialize (Hall y Hy).
    assert (x <> y) by (intros ->; contradiction).
    lia.
Qed.

Lemma is_in_true (ts : list nat) (i : nat) : is_in ts i = true <-> In i ts.
Proof.
  unfold is_in. rewrite existsb_exists. split.
  - intros [x [Hx Heq]]. apply Nat.eqb_eq in Heq. now subst.
  - intros H. exists i. split; [exact H | apply Nat.eqb_refl].
Qed.

Lemma is_in_perm (ts ts' : list nat) (i : nat) :
  Permutation ts ts' -> is_in ts i = is_in ts' i.
Proof.
  intros Hp.
  destruct (is_in ts i) eqn:E1, (is_in ts' i) eqn:E2; try reflexivity.
  - apply is_in_true in E1. apply (Permutation_in _ Hp), is_in_true in E1. congruence.
  - apply is_in_true in E2. apply (Permutation_in _ (Permutation_sym Hp)), is_in_true in E2.
    congruence.
Qed.

Section KeepFrom.

Context {A : Type}.

Lemma keep_from_ext (k : nat) (l : list A) (ts ts' : list nat) :
  (forall i, (k <= i < k + length l)%nat -> is_in ts i = is_in ts' i) ->
  keep_from k l ts = keep_from k l ts'.
Proof.
  revert k. induction l as [|x l IH]; intros k H; simpl; [reflexivity|].
  rewrite (H k) by (simpl; lia).
  rewrite (IH (S k)) by (intros i Hi; apply H; simpl; lia).
  reflexivity.
Qed.

Lemma keep_from_nil (k : nat) (l : list A) : keep_from k l [] = l.
Proof.
  revert k. induction l as [|x l IH]; intros k; simpl; [reflexivity|].
  now rewrite IH.
Qed.

Lemma keep_from_none (k : nat) (l : list A) (ts : list nat) :
  (forall i, (k <= i < k + length l)%nat -> is_in ts i = false) ->
  keep_from k l ts = l.
Proof.
  intros H. rewrite (keep_from_ext k l ts []); [apply keep_from_nil|].
  intros i Hi. now rewrite H.
Qed.

Lemma keep_from_app (k : nat) (l1 l2 : list A) (ts : list nat) :
  keep_from k (l1 ++ l2) ts = keep_from k l1 ts ++ keep_from (k + length l1) l2 ts.
Proof.
  revert k. induction l1 as [|x l1 IH]; intros k; simpl.
  - now rewrite Nat.add_0_r.
  - rewrite IH, <- plus_n_Sm. now destruct (is_in ts k).
Qed.

(** Deleting the index [t] and then smaller ones keeps what deleting all of
    them at once keeps. *)
Lemma keep_after_del (l : list A) (t : nat) (ts : list nat) :
  (t < length l)%nat -> Forall (fun s => (s < t)%nat) ts ->
  keep_from 0 (firstn t l ++ skipn (S t) l) ts = keep_from 0 l (t :: ts).
Proof.
  intros Ht Hts.
  assert (Hnot : forall i, (t <= i)%nat -> is_in ts i = false).
  { intros i Hi. destruct (is_in ts i) eqn:E; [|reflexivity].
    apply is_in_true in E. rewrite Forall_forall in Hts.
    specialize (Hts i E). lia. }
  destruct (nth_error l t) as [x|] eqn:Ex.
  2:{ apply nth_error_None in Ex. lia. }
  destruct (nth_error_split _ _ Ex) as [l1 [l2 [Hl Hlen]]].
  assert (H1 : firstn t l = l1).
  { rewrite Hl, <- Hlen, firstn_app, firstn_all, Nat.sub_diag. simpl. apply app_nil_r. }
  assert (H2 : skipn (S t) l = l2).
  { change (S t) with (1 + t)%nat. rewrite <- skipn_skipn.
    rewrite Hl at 1. rewrite <- Hlen, skipn_app, skipn_all, Nat.sub_diag. reflexivity. }
  rewrite H1, H2, Hl.
  rewrite !keep_from_app. simpl. rewrite Hlen.
  f_equal.
  - apply keep_from_ext. intros i Hi. unfold is_in; simpl.
    destruct (Nat.eqb_spec i t); [lia | reflexivity].
  - rewrite Nat.eqb_refl. simpl.
    rewrite !keep_from_none; [reflexivity | |].
    + intros i Hi. unfold is_in; simpl.
      destruct (Nat.eqb_spec i t); [lia|]. apply Hnot. lia.
    + intros i Hi. apply Hnot. lia.
Qed.

Lemma del_each_keeps (ts : list nat) (l : list A) :
  StronglySorted gt ts -> Forall (fun t => (t < length l)%nat) ts ->
  del_each l ts = Returns (keep_from 0 l ts).
Proof.
  intros Hs. revert l. induction Hs as [|t ts Hs IH Hall]; intros l Hb; simpl.
  - now rewrite keep_from_nil.
  - inversion Hb as [|? ? Ht Hrest]; subst.
    unfold del_item. apply Nat.ltb_lt in Ht as Ht'. rewrite Ht'.
    assert (Hlt : Forall (fun s => (s < t)%nat) ts).
    { eapply Forall_impl; [|exact Hall]. simpl. intros s Hsgt. exact Hsgt. }
    rewrite IH.
    + f_equal. now apply keep_after_del.
    + apply Forall_forall. intros s Hin.
      rewrite Forall_forall in Hlt. specialize (Hlt s Hin).
      rewrite length_app, length_firstn, length_skipn. lia.
Qed.

End KeepFrom.

Lemma keep_from_seq (k n : nat) (ts : list nat) :
  keep_from k (seq k n) ts = filter (fun i => negb (is_in ts i)) (seq k n).
Proof.
  revert k. induction n as [|n IH]; intros k; simpl; [reflexivity|].
  rewrite IH. now destruct (is_in ts k).
Qed.

Lemma range_loop (n : nat) : fold_left (fun acc i => acc ++ [i]) (seq 0 n) [] = seq 0 n.
Proof. rewrite (fold_left_append_map (fun i => i)). simpl. apply map_id. Qed.

(** X9: for distinct training indices below [n], the deletions raise
    nothing and leave exactly the indices of [range(n)] that are not
    training indices, in increasing order. *)
Theorem make_testers_complement (n : nat) (ts : list nat) :
  NoDup ts -> Forall (fun t => (t < n)%nat) ts ->
  make_testers n ts = Returns (filter (fun i => negb (is_in ts i)) (seq 0 n)).
Proof.
  intros Hnd Hb. unfold make_testers. rewrite range_loop.
  pose proof (sorted_reverse_perm ts) as Hp.
  rewrite del_each_keeps.
  - rewrite keep_from_seq. f_equal.
    apply filter_ext. intros i. now rewrite (is_in_perm _ _ i Hp).
  - apply sorted_nodup_strict; [apply sorted_reverse_sorted|].
    apply (Permutation_NoDup (Permutation_sym Hp) Hnd).
  - rewrite length_seq.
    apply (Permutation_Forall (Permutation_sym Hp) Hb).
Qed.

Lemma trainers_distinct_in_range : NoDup trainers /\ Forall (fun t => (t < 31)%nat) trainers.
Proof.
  split.
  - unfold trainers. repeat constructor; simpl; intuition discriminate.
  - unfold trainers. repeat constructor; lia.
Qed.

Lemma make_testers_complement_witness :
  (NoDup trainers /\ Forall (fun t => (t < 31)%nat) trainers) /\
  make_testers 31 trainers
  = Returns (filter (fun i => negb (is_in trainers i)) (seq 0 31)).
Proof.
  split; [apply trainers_distinct_in_range|].
  exact (make_testers_complement 31 trainers
           (proj1 trainers_distinct_in_range) (proj2 trainers_distinct_in_range)).
Defined.

(** X10: for distinct training indices below [n], training and test indices
    together are a rearrangement of [range(n)]: every index is used once,
    none twice, and there are [n - len(trainers)] test indices. *)
Theorem make_testers_partition (n : nat) (ts : list nat) :
  NoDup ts -> Forall (fun t => (t < n)%nat) ts ->
  exists testers, make_testers n ts = Returns testers /\
    Permutation (ts ++ testers) (seq 0 n) /\
    length testers = (n - length ts)%nat.
Proof.
  intros Hnd Hb.
  exists (filter (fun i => negb (is_in ts i)) (seq 0 n)).
  split; [now apply make_testers_complement|].
  assert (Hperm : Permutation (ts ++ filter (fun i => negb (is_in ts i)) (seq 0 n)) (seq 0 n)).
  { apply NoDup_Permutation.
    - apply NoDup_app; [exact Hnd | apply NoDup_filter, seq_NoDup |].
      intros x Hx Hf. apply filter_In in Hf. destruct Hf as [_ Hf].
      apply is_in_true in Hx. rewrite Hx in Hf. discriminate.
    - apply seq_NoDup.
    - intros x. rewrite in_app_iff, filter_In, in_seq. split.
      + intros [Hx|[Hx _]]; [|exact Hx].
        rewrite Forall_forall in Hb. specialize (Hb x Hx). lia.
      + intros Hx. destruct (is_in ts x) eqn:E.
        * left. now apply is_in_true.
        * right. split; [exact Hx | reflexivity]. }
  split; [exact Hperm|].
  apply Permutation_length in Hperm.
  rewrite length_app, length_seq in Hperm. lia.
Qed.

Lemma make_testers_partition_witness :
  (NoDup trainers /\ Forall (fun t => (t < 31)%nat) trainers) /\
  exists testers, make_testers 31 trainers = Returns testers /\
    Permutation (trainers ++ testers) (seq 0 31) /\
    length testers = 27%nat.
Proof.
  split; [apply trainers_distinct_in_range|].
  exact (make_testers_partition 31 trainers
           (proj1 trainers_distinct_in_range) (proj2 trainers_distinct_in_range)).
Defined.

(** X11: when some training index is [n] or more, the first deletion raises
    [IndexError]: the indices are taken largest first. *)
Theorem make_testers_index_error (n : nat) (ts : list nat) :
  Exists (fun t => (n <= t)%nat) ts ->
  make_testers n ts = Raises IndexError.
Proof.
  intros H. unfold make_testers. rewrite range_loop.
  apply Exists_exists in H. destruct H as [t [Hin Hge]].
  pose proof (sorted_reverse_perm ts) as Hp.
  pose proof (sorted_reverse_sorted ts) as Hs.
  apply (Permutation_in _ (Permutation_sym Hp)) in Hin.
  destruct (sorted_reverse ts) as [|m rest]; [contradiction|].
  assert (Hm : (n <= m)%nat).
  { destruct Hin as [->|Hin]; [exact Hge|].
    inversion Hs as [|? ? _ Hall]; subst.
    rewrite Forall_forall in Hall. specialize (Hall t Hin). lia. }
  simpl. unfold del_item. rewrite length_seq.
  apply Nat.ltb_ge in Hm. now rewrite Hm.
Qed.

Lemma make_testers_index_error_witness :
  Exists (fun t => (31 <= t)%nat) [0; 7; 31]%nat /\
  make_testers 31 [0; 7; 31]%nat = Raises IndexError.
Proof.
  assert (H : Exists (fun t => (31 <= t)%nat) [0; 7; 31]%nat).
  { apply Exists_cons_tl, Exists_cons_tl, Exists_cons_hd. lia. }
  split; [exact H|].
  exact (make_testers_index_error 31 [0; 7; 31]%nat H).
Defined.

(** ** The aromatic proportion *)

Lemma aromatic_atoms_le (mol : Mol) :
  (length (GetAromaticAtoms mol) <= GetNumAtoms mol)%nat.
Proof. apply filter_length_le. Qed.

Lemma aromatic_calc_some (mol : Mol) :
  mol <> [] ->
  aromatic_calc mol = Some (INR (length (GetAromaticAtoms mol)) / INR (GetNumAtoms mol)).
Proof.
  intros H. unfold aromatic_calc.
  destruct (Nat.eqb_spec (GetNumAtoms mol) 0) as [E|_]; [|reflexivity].
  apply length_zero_iff_nil in E. contradiction.
Qed.

Lemma num_atoms_pos (mol : Mol) : mol <> [] -> 0 < INR (GetNumAtoms mol).
Proof.
  intros H. apply lt_0_INR. unfold GetNumAtoms.
  destruct mol; [contradiction | simpl; lia].
Qed.

(** X12: for a molecule with at least one atom, [aromatic_calc] returns a
    proportion between 0 and 1. *)
Theorem aromatic_calc_range (mol : Mol) :
  mol <> [] ->
  exists p, aromatic_calc mol = Some p /\ 0 <= p <= 1.
Proof.
  intros H. eexists. split; [now apply aromatic_calc_some|].
  pose proof (num_atoms_pos mol H) as Hn.
  pose proof (pos_INR (length (GetAromaticAtoms mol))) as Ha.
  pose proof (le_INR _ _ (aromatic_atoms_le mol)) as Hle.
  split.
  - apply Rmult_le_pos; [exact Ha|]. left. now apply Rinv_0_lt_compat.
  - apply Rmult_le_reg_r with (INR (GetNumAtoms mol)); [exact Hn|].
    unfold Rdiv. rewrite Rmult_assoc, Rinv_l by lra. lra.
Qed.

Lemma aromatic_calc_range_witness :
  [ {| atomic_num := 6; is_aromatic := true |};
    {| atomic_num := 8; is_aromatic := false |} ] <> [] /\
  exists p, aromatic_calc [ {| atomic_num := 6; is_aromatic := true |};
                            {| atomic_num := 8; is_aromatic := false |} ] = Some p /\
            0 <= p <= 1.
Proof.
  assert (H : [ {| atomic_num := 6; is_aromatic := true |};
                {| atomic_num := 8; is_aromatic := false |} ] <> []) by discriminate.
  split; [exact H|].
  exact (aromatic_calc_range _ H).
Defined.

(** X13: [aromatic_calc] fails, on the division by zero, exactly for the
    molecule without atoms. *)
Theorem aromatic_calc_zero_division (mol : Mol) :
  aromatic_calc mol = None <-> mol = [].
Proof.
  split.
  - intros H. destruct mol as [|a mol]; [reflexivity|].
    rewrite aromatic_calc_some in H by discriminate. discriminate.
  - intros ->. reflexivity.
Qed.

Lemma filter_length_all {A : Type} (f : A -> bool) (l : list A) :
  length (filter f l) = length l <-> forallb f l = true.
Proof.
  induction l as [|x l IH]; simpl; [tauto|].
  pose proof (filter_length_le f l) as Hle.
  destruct (f x); simpl.
  - rewrite <- IH. lia.
  - split; [lia | discriminate].
Qed.

Lemma filter_length_none {A : Type} (f : A -> bool) (l : list A) :
  length (filter f l) = 0%nat <-> forallb (fun x => negb (f x)) l = true.
Proof.
  induction l as [|x l IH]; simpl; [tauto|].
  destruct (f x); simpl.
  - split; [lia | discriminate].
  - exact IH.
Qed.

(** X14: for a molecule with at least one atom, the proportion is 1 exactly
    when every atom is aromatic and 0 exactly when none is. *)
Theorem aromatic_calc_extremes (mol : Mol) :
  mol <> [] ->
  (aromatic_calc mol = Some 1 <-> forallb is_aromatic mol = true) /\
  (aromatic_calc mol = Some 0 <-> forallb (fun a => negb (is_aromatic a)) mol = true).
Proof.
  intros H. rewrite (aromatic_calc_some mol H).
  pose proof (num_atoms_pos mol H) as Hn.
  unfold GetAromaticAtoms, GetNumAtoms in *.
  rewrite <- filter_length_all, <- filter_length_none.
  split; split.
  - intros E. injection E as E. apply INR_eq.
    apply (Rmult_eq_compat_r (INR (length mol))) in E.
    unfold Rdiv in E. rewrite Rmult_assoc, Rinv_l in E by lra. lra.
  - intros ->. f_equal. field. lra.
  - intros E. injection E as E. apply INR_eq.
    apply (Rmult_eq_compat_r (INR (length mol))) in E.
    unfold Rdiv in E. rewrite Rmult_assoc, Rinv_l in E by lra. simpl. lra.
  - intros ->. f_equal. simpl. field. lra.
Qed.

Lemma aromatic_calc_extremes_witness :
  [ {| atomic_num := 6; is_aromatic := true |} ] <> [] /\
  (aromatic_calc [ {| atomic_num := 6; is_aromatic := true |} ] = Some 1
   <-> forallb is_aromatic [ {| atomic_num := 6; is_aromatic := true |} ] = true).
Proof.
  assert (H : [ {| atomic_num := 6; is_aromatic := true |} ] <> []) by discriminate.
  split; [exact H|].
  exact (proj1 (aromatic_calc_extremes _ H)).
Defined.
